(** * Catalog service: cache consistency between the product table and Redis

    A shallow embedding of [app.py] (FastAPI handlers over PostgreSQL and
    Redis).  Each handler is a function from the state of the two
    collaborators to an outcome and a new state:

    - the table [products] is a finite map from the primary key [id] to the
      other four columns, together with the value of the [SERIAL] sequence;
    - Redis is a finite map from keys to a text and the instant at which the
      key expires ([setex]); a key whose expiry has passed reads as missing;
    - a Python exception that leaves a handler is an outcome [Raise].

    Requests run one after the other.  The Store refuses field values outside
    the column domains declared by [init_db] ([price] is counted in
    hundredths, as the [DECIMAL(10, 2)] column holds it).  Redis answers every
    command, except in the [_redis_down] variants of the write handlers.
    [json.dumps] and [json.loads] are parameters of the development; either
    may raise, and [rows_rejected] is the instance the program runs with. *)

From Stdlib Require Import Strings.Ascii.
From stdpp Require Import base numbers strings pretty list sorting gmap fin_maps.

Open Scope string_scope.
Open Scope Z_scope.

(** ** Data model *)

(** [class Product(BaseModel)]: the request body of POST and PUT. *)
Record Product := mkProduct {
  name : string;
  description : string;
  price : Z;     (* in hundredths: 1299.99 is 129999 *)
  stock : Z
}.

(** A row of [products] as a handler returns it ([dict(row)], the shape of
    [ProductResponse]): the identifier and the four other columns. *)
Record ProductResponse := mkRow {
  id : Z;
  product : Product
}.

(** The Python objects that go through [json.dumps] / [json.loads]: one row
    dict, or a list of row dicts. *)
Inductive pyobj :=
  | PyDict (row : ProductResponse)
  | PyList (rows : list ProductResponse).

(** Exceptions that can leave a handler: the 404 and 500 the handlers raise
    themselves, the Store refusing a duplicate key, [json.dumps] refusing an
    object, [json.loads] refusing a text, the Store refusing a value outside
    a column's domain ([psycopg2.DataError]), the driver refusing a text with
    a NUL character, Redis not answering. *)
Inductive exn :=
  | HTTPException (status_code : Z) (detail : string)
  | UniqueViolation
  | TypeError
  | JSONDecodeError
  | DataError
  | ValueError
  | ConnectionError.

Inductive outcome (A : Type) :=
  | Return (a : A)
  | Raise (e : exn).
Arguments Return {A} a.
Arguments Raise {A} e.

(** The 404 raised by [get_product], [update_product] and [delete_product]. *)
Definition NotFound : exn := HTTPException 404 "Product not found".

(** State of the two collaborators. *)
Record State := mkState {
  products : gmap Z Product;          (* table products, by primary key *)
  products_id_seq : Z;                (* next value of the SERIAL sequence *)
  redis : gmap string (string * Z);   (* key -> (text, expiry instant) *)
  clock : Z                           (* current instant, in seconds *)
}.

Definition initial : State :=
  {| products := ∅; products_id_seq := 1; redis := ∅; clock := 0 |}.

Definition set_redis (c : gmap string (string * Z)) (s : State) : State :=
  {| products := products s; products_id_seq := products_id_seq s;
     redis := c; clock := clock s |}.

Definition set_products (t : gmap Z Product) (s : State) : State :=
  {| products := t; products_id_seq := products_id_seq s;
     redis := redis s; clock := clock s |}.

(** ** Redis commands used by the handlers *)

(** [r.get(key)]: the text, or [None] when the key is missing or expired. *)
Definition r_get (key : string) (s : State) : option string :=
  match redis s !! key with
  | Some (text, expiry) => if decide (clock s < expiry) then Some text else None
  | None => None
  end.

(** [r.setex(key, ttl, text)]. *)
Definition r_setex (key : string) (ttl : Z) (text : string) (s : State) : State :=
  set_redis (<[key := (text, clock s + ttl)]> (redis s)) s.

(** [r.delete(key)]. *)
Definition r_delete (key : string) (s : State) : State :=
  set_redis (delete key (redis s)) s.

(** The two shapes of cache key: ["products:all"] and [f"product:{id}"]. *)
Definition products_all : string := "products:all".

Definition product_key (product_id : Z) : string :=
  "product:" +:+ pretty product_id.

(** ** Column domains of [products] *)

(** The text holds a NUL character (the driver refuses to send it). *)
Fixpoint has_nul (text : string) : bool :=
  match text with
  | EmptyString => false
  | String c rest => if decide (c = "000"%char) then true else has_nul rest
  end.

Fixpoint only_spaces (text : string) : bool :=
  match text with
  | EmptyString => true
  | String c rest => if decide (c = " "%char) then only_spaces rest else false
  end.

(** [VARCHAR(n)]: a longer text is refused, unless what exceeds [n]
    characters is spaces only, which are cut off. *)
Definition varchar (n : nat) (text : string) : option string :=
  if decide (String.length text ≤ n)%nat then Some text
  else if only_spaces (String.substring n (String.length text - n) text)
       then Some (String.substring 0 n text)
       else None.

(** [INTEGER]. *)
Definition integer_ok (z : Z) : Prop := -2147483648 ≤ z ≤ 2147483647.

(** [DECIMAL(10, 2)], in hundredths: at most ten digits. *)
Definition decimal_10_2_ok (hundredths : Z) : Prop :=
  -9999999999 ≤ hundredths ≤ 9999999999.

(** The values the four columns take from the fields of a request:
    [name VARCHAR(255)], [description TEXT], [price DECIMAL(10, 2)],
    [stock INTEGER]. A refusal is raised before the statement runs. *)
Definition column_values (p : Product) : outcome Product :=
  if has_nul (name p) || has_nul (description p) then Raise ValueError
  else
    match varchar 255 (name p) with
    | None => Raise DataError
    | Some stored_name =>
      if decide (decimal_10_2_ok (price p) ∧ integer_ok (stock p))
      then Return {| name := stored_name; description := description p;
                     price := price p; stock := stock p |}
      else Raise DataError
    end.

(** ** SQL statements used by the handlers *)

(** [INSERT INTO products ... RETURNING ...]: values outside the column
    domains are refused before anything happens; otherwise
    [id SERIAL PRIMARY KEY] draws the identifier from the sequence, and the
    row is stored unless that key is taken (the sequence keeps its new value
    when the key is taken). *)
Definition sql_insert (p : Product) (s : State) : outcome ProductResponse * State :=
  match column_values p with
  | Raise e => (Raise e, s)
  | Return values =>
    let new_id := products_id_seq s in
    let s1 := {| products := products s; products_id_seq := new_id + 1;
                 redis := redis s; clock := clock s |} in
    match products s !! new_id with
    | Some _ => (Raise UniqueViolation, s1)
    | None => (Return (mkRow new_id values),
               set_products (<[new_id := values]> (products s)) s1)
    end
  end.

(** [SELECT * FROM products ORDER BY id]. *)
Definition row_le (a b : Z * Product) : Prop := a.1 ≤ b.1.

#[global] Instance row_le_dec a b : Decision (row_le a b).
Proof. unfold row_le. apply _. Defined.

Definition sql_select_all (s : State) : list ProductResponse :=
  (λ kv, mkRow kv.1 kv.2) <$> merge_sort row_le (map_to_list (products s)).

(** [SELECT * FROM products WHERE id = %s], then [fetchone()]. *)
Definition sql_select (product_id : Z) (s : State) : option ProductResponse :=
  mkRow product_id <$> products s !! product_id.

(** [UPDATE products SET ... WHERE id = %s RETURNING ...], then [fetchone()]
    and [commit()]: values outside the column domains are refused whether a
    row matches or not. *)
Definition sql_update (product_id : Z) (p : Product) (s : State)
  : outcome (option ProductResponse) * State :=
  match column_values p with
  | Raise e => (Raise e, s)
  | Return values =>
    match products s !! product_id with
    | Some _ => (Return (Some (mkRow product_id values)),
                 set_products (<[product_id := values]> (products s)) s)
    | None => (Return None, s)
    end
  end.

(** [DELETE FROM products WHERE id = %s RETURNING id], then [fetchone()] and
    [commit()]. *)
Definition sql_delete (product_id : Z) (s : State) : option Z * State :=
  match products s !! product_id with
  | Some _ => (Some product_id, set_products (delete product_id (products s)) s)
  | None => (None, s)
  end.

(** ** Health check *)

(** What a connectivity probe does: it succeeds or raises with a message. *)
Inductive probe :=
  | Up
  | Down (message : string).

Record Health := mkHealth {
  status : string;
  postgres : string;
  redis_state : string
}.

(** [health_check]: PostgreSQL is probed first, Redis second; whatever is
    raised by either is caught by the one [except Exception] clause. *)
Definition health_check (pg rd : probe) : outcome Health :=
  match pg with
  | Down e => Raise (HTTPException 500 ("Health check failed: " +:+ e))
  | Up =>
    match rd with
    | Down e => Raise (HTTPException 500 ("Health check failed: " +:+ e))
    | Up => Return (mkHealth "healthy" "connected" "connected")
    end
  end.

(** ** Write path *)

(** [create_product]. *)
Definition create_product (p : Product) (s : State) : outcome ProductResponse * State :=
  match sql_insert p s with
  | (Return new_product, s1) => (Return new_product, r_delete products_all s1)
  | (Raise e, s1) => (Raise e, s1)
  end.

(** [update_product]. *)
Definition update_product (product_id : Z) (p : Product) (s : State)
  : outcome ProductResponse * State :=
  match sql_update product_id p s with
  | (Raise e, s1) => (Raise e, s1)
  | (Return None, s1) => (Raise NotFound, s1)
  | (Return (Some updated_product), s1) =>
      (Return updated_product,
       r_delete products_all (r_delete (product_key product_id) s1))
  end.

(** [delete_product]. *)
Definition delete_product (product_id : Z) (s : State) : outcome string * State :=
  match sql_delete product_id s with
  | (None, s1) => (Raise NotFound, s1)
  | (Some _, s1) =>
      (Return "Product deleted successfully",
       r_delete products_all (r_delete (product_key product_id) s1))
  end.

(** ** Write path when Redis does not answer *)

(** [create_product] when [r.delete] raises: the row is committed already. *)
Definition create_product_redis_down (p : Product) (s : State)
  : outcome ProductResponse * State :=
  match sql_insert p s with
  | (Return _, s1) => (Raise ConnectionError, s1)
  | (Raise e, s1) => (Raise e, s1)
  end.

(** [update_product] when [r.delete] raises. *)
Definition update_product_redis_down (product_id : Z) (p : Product) (s : State)
  : outcome ProductResponse * State :=
  match sql_update product_id p s with
  | (Raise e, s1) => (Raise e, s1)
  | (Return None, s1) => (Raise NotFound, s1)
  | (Return (Some _), s1) => (Raise ConnectionError, s1)
  end.

(** [delete_product] when [r.delete] raises. *)
Definition delete_product_redis_down (product_id : Z) (s : State)
  : outcome string * State :=
  match sql_delete product_id s with
  | (None, s1) => (Raise NotFound, s1)
  | (Some _, s1) => (Raise ConnectionError, s1)
  end.

(** ** Read path *)

(** [json.dumps] and [json.loads], as the handlers use them: [dumps] gives the
    text to store in Redis, [loads] gives the object back; [None] stands for
    the call raising ([TypeError] on an object with no encoding,
    [JSONDecodeError] on a text that is not the dump of a row or a listing). *)
Class JsonCodec := {
  json_dumps : pyobj → option string;
  json_loads : string → option pyobj
}.

(** What the development asks of the serializer: a text written by [dumps]
    reads back as the same object, and is never the empty (falsy) string. *)
Class JsonLaws {codec : JsonCodec} : Prop := {
  json_loads_dumps : ∀ v text, json_dumps v = Some text → json_loads text = Some v;
  json_dumps_truthy : ∀ v, json_dumps v ≠ Some ""
}.

Section read_path.
Context {codec : JsonCodec}.

(** [json.dumps] accepts the object. *)
Definition serializable (v : pyobj) : Prop := is_Some (json_dumps v).

(** [if cached:] fails: [r.get] gave [None] or the empty string. *)
Definition falsy (cached : option string) : Prop :=
  cached = None ∨ cached = Some "".

(** [return json.loads(cached)]. *)
Definition return_cached (cached : string) : outcome pyobj :=
  match json_loads cached with
  | Some v => Return v
  | None => Raise JSONDecodeError
  end.

(** [list_products]. *)
Definition list_products (use_cache : bool) (s : State) : outcome pyobj * State :=
  let from_database :=
    let products_list := sql_select_all s in
    match json_dumps (PyList products_list) with
    | Some text => (Return (PyList products_list), r_setex products_all 300 text s)
    | None => (Raise TypeError, s)
    end in
  if use_cache then
    match r_get products_all s with
    | Some (String c t) => (return_cached (String c t), s)
    | _ => from_database
    end
  else from_database.

(** [get_product]. *)
Definition get_product (product_id : Z) (s : State) : outcome pyobj * State :=
  let cache_key := product_key product_id in
  match r_get cache_key s with
  | Some (String c t) => (return_cached (String c t), s)
  | _ =>
    match sql_select product_id s with
    | None => (Raise NotFound, s)
    | Some product_dict =>
      match json_dumps (PyDict product_dict) with
      | Some text => (Return (PyDict product_dict), r_setex cache_key 300 text s)
      | None => (Raise TypeError, s)
      end
    end
  end.

(** ** Runs of the service *)

(** One request to a route of the application, or time passing between
    two requests. *)
Inductive event :=
  | POST_products (p : Product)
  | GET_products (use_cache : bool)
  | GET_product (product_id : Z)
  | PUT_product (product_id : Z) (p : Product)
  | DELETE_product (product_id : Z)
  | Elapse (seconds : N).

Definition elapse (seconds : N) (s : State) : State :=
  {| products := products s; products_id_seq := products_id_seq s;
     redis := redis s; clock := clock s + Z.of_N seconds |}.

(** State after one event (the response is dropped). *)
Definition exec (e : event) (s : State) : State :=
  match e with
  | POST_products p => (create_product p s).2
  | GET_products use_cache => (list_products use_cache s).2
  | GET_product product_id => (get_product product_id s).2
  | PUT_product product_id p => (update_product product_id p s).2
  | DELETE_product product_id => (delete_product product_id s).2
  | Elapse seconds => elapse seconds s
  end.

Fixpoint run (es : list event) (s : State) : State :=
  match es with
  | [] => s
  | e :: es' => run es' (exec e s)
  end.

(** The write path of the service. *)
Definition write_path (e : event) : bool :=
  match e with
  | POST_products _ | PUT_product _ _ | DELETE_product _ => true
  | _ => false
  end.

(** ** Invariants *)

(** Rows in ascending (strictly increasing) order of identifier. *)
Definition ascending (rows : list ProductResponse) : Prop :=
  StronglySorted (λ a b, id a < id b) rows.

(** Every identifier in the table was drawn from the sequence. *)
Definition seq_ok (s : State) : Prop :=
  ∀ k p, products s !! k = Some p → k < products_id_seq s.

(** The identifier was drawn from the sequence, has no row, and its cache
    key is not set. *)
Definition gone (product_id : Z) (s : State) : Prop :=
  products s !! product_id = None ∧
  product_id < products_id_seq s ∧
  redis s !! product_key product_id = None.

(** A per-identifier key is set only for identifiers drawn from the
    sequence. *)
Definition keys_assigned (s : State) : Prop :=
  ∀ k entry, redis s !! product_key k = Some entry → k < products_id_seq s.

(** No key of Redis holds the empty text. *)
Definition texts_truthy (s : State) : Prop :=
  ∀ k text expiry, redis s !! k = Some (text, expiry) → text ≠ "".

(** Every cached text is the dump of what the table holds now: a
    per-identifier key holds the current row, the aggregate key the current
    listing. *)
Definition coherent (s : State) : Prop :=
  (∀ k text expiry, redis s !! product_key k = Some (text, expiry) →
     ∃ p, products s !! k = Some p ∧ json_dumps (PyDict (mkRow k p)) = Some text) ∧
  (∀ text expiry, redis s !! products_all = Some (text, expiry) →
     json_dumps (PyList (sql_select_all s)) = Some text).

(** The aggregate key, when set, holds the dump of an ordered listing. *)
Definition listing_ok (s : State) : Prop :=
  ∀ text expiry, redis s !! products_all = Some (text, expiry) →
    ∃ rows, json_dumps (PyList rows) = Some text ∧ ascending rows.
End read_path.

(** Proof of an invariant of [run] from its preservation by [exec]. *)
Ltac invariant_of_run es s step :=
  revert s; induction es as [|? ? IH]; intros s ?; simpl;
  [assumption | apply IH; apply step; assumption].

(** ** A serializer satisfying [JsonLaws] *)

#[global] Instance Product_eq_dec : EqDecision Product.
Proof. solve_decision. Defined.

#[global] Instance ProductResponse_eq_dec : EqDecision ProductResponse.
Proof. solve_decision. Defined.

#[global] Instance pyobj_eq_dec : EqDecision pyobj.
Proof. solve_decision. Defined.

#[global] Instance Product_countable : Countable Product.
Proof.
  refine (inj_countable'
            (λ p, (name p, description p, price p, stock p))
            (λ t, mkProduct t.1.1.1 t.1.1.2 t.1.2 t.2) _).
  by intros [].
Defined.

#[global] Instance ProductResponse_countable : Countable ProductResponse.
Proof.
  refine (inj_countable' (λ r, (id r, product r)) (λ t, mkRow t.1 t.2) _).
  by intros [].
Defined.

#[global] Instance pyobj_countable : Countable pyobj.
Proof.
  refine (inj_countable'
            (λ v, match v with PyDict r => inl r | PyList l => inr l end)
            (λ t, match t with inl r => PyDict r | inr l => PyList l end) _).
  by intros [].
Defined.

(** A positive number written in binary, least significant digit first. *)
Fixpoint bits_of_pos (p : positive) : string :=
  match p with
  | xH => ""
  | xO q => String "0"%char (bits_of_pos q)
  | xI q => String "1"%char (bits_of_pos q)
  end.

Fixpoint pos_of_bits (text : string) : positive :=
  match text with
  | EmptyString => xH
  | String "1"%char rest => xI (pos_of_bits rest)
  | String _ rest => xO (pos_of_bits rest)
  end.

(** The object's code in binary behind a one-letter tag. *)
Definition bit_codec : JsonCodec :=
  {| json_dumps := λ v, Some (String "j"%char (bits_of_pos (encode v)));
     json_loads := λ text,
       match text with
       | String "j"%char rest => decode (pos_of_bits rest)
       | _ => None
       end |}.

(** The serializer the program runs with. [json.dumps] is called with no
    [default=], and a row read from the table holds its [DECIMAL] price as a
    [decimal.Decimal], which has no encoding: every row and every non-empty
    listing is refused, the empty listing is written as the two characters
    of an empty array. *)
Definition rows_rejected : JsonCodec :=
  {| json_dumps := λ v, match v with PyList [] => Some "[]" | _ => None end;
     json_loads := λ text, if decide (text = "[]") then Some (PyList []) else None |}.

(** ** Sample data *)

Definition laptop : Product :=
  {| name := "Laptop"; description := "Gaming laptop"; price := 129999; stock := 10 |}.

Definition returned_goods : Product :=
  {| name := "Returned"; description := "Stock correction"; price := 2000; stock := -5 |}.

(** The table holds [laptop] under identifier 1; Redis is empty. *)
Definition one_product : State :=
  {| products := {[ 1 := laptop ]}; products_id_seq := 2; redis := ∅; clock := 0 |}.

(** A stock one beyond the largest [INTEGER]. *)
Definition overstocked : Product :=
  {| name := "Laptop"; description := "Gaming laptop"; price := 129999;
     stock := 2147483648 |}.

Definition discounted : Product :=
  {| name := "Laptop"; description := "Gaming laptop"; price := 99999; stock := 9 |}.

(** The same table; both cache keys are set and live until instant 300. *)
Definition one_product_cached : State :=
  {| products := {[ 1 := laptop ]}; products_id_seq := 2;
     redis := {[ "product:1" := ("cached row", 300);
                 "products:all" := ("cached listing", 300) ]};
     clock := 0 |}.

(** ** Test fixture and further invariants *)

(** [cleanup_data] of [test_app.py], run before each test:
    [DELETE FROM products] (the sequence keeps its value) and [r.flushdb()]. *)
Definition cleanup_data (s : State) : State :=
  {| products := ∅; products_id_seq := products_id_seq s;
     redis := ∅; clock := clock s |}.

(** No key of Redis outlives the next 300 seconds. *)
Definition ttl_bounded (s : State) : Prop :=
  ∀ k text expiry, redis s !! k = Some (text, expiry) → expiry ≤ clock s + 300.

(** The rows that successive INSERTs of [ps] give when the sequence stands
    at [n]. *)
Fixpoint numbered (n : Z) (ps : list Product) : list ProductResponse :=
  match ps with
  | [] => []
  | p :: ps' => mkRow n p :: numbered (n + 1) ps'
  end.

(** * Properties *)

(** ** Cache keys *)

Lemma product_key_not_all product_id : product_key product_id ≠ products_all.
Proof. unfold product_key, products_all. simpl. intros H. discriminate H. Qed.

Lemma product_key_inj a b : product_key a = product_key b → a = b.
Proof.
  unfold product_key. intros H.
  apply (inj (String.append "product:")) in H. by apply (inj pretty) in H.
Qed.

(** ** The ordered query *)

#[global] Instance row_le_trans : Transitive row_le.
Proof. unfold row_le. intros x y z ??. lia. Qed.

#[global] Instance row_le_total : Total row_le.
Proof. unfold row_le. intros x y. lia. Qed.

Lemma sorted_nodup_strict (l : list (Z * Product)) :
  StronglySorted row_le l → NoDup l.*1 →
  StronglySorted (λ a b, a.1 < b.1) l.
Proof.
  induction 1 as [|x l Hs IH Hall]; intros Hnd; constructor.
  - apply IH. by apply NoDup_cons in Hnd as [_ ?].
  - apply NoDup_cons in Hnd as [Hx _].
    rewrite Forall_forall in Hall |- *. intros y Hy.
    specialize (Hall y Hy). unfold row_le in Hall.
    assert (x.1 ≠ y.1); [|lia].
    intros Heq. apply Hx. rewrite Heq. by apply list_elem_of_fmap_2.
Qed.

Lemma sql_select_all_ascending s : ascending (sql_select_all s).
Proof.
  unfold ascending, sql_select_all.
  apply (StronglySorted_fmap _ (λ a b : Z * Product, a.1 < b.1)); [done|].
  apply sorted_nodup_strict.
  - apply (StronglySorted_merge_sort row_le).
  - rewrite (merge_sort_Permutation row_le). apply NoDup_fst_map_to_list.
Qed.

Lemma sql_select_all_rows s r :
  r ∈ sql_select_all s ↔ products s !! id r = Some (product r).
Proof.
  unfold sql_select_all. rewrite list_elem_of_fmap. split.
  - intros ([k p] & -> & Hin). simpl.
    rewrite (merge_sort_Permutation row_le) in Hin.
    by apply elem_of_map_to_list in Hin.
  - intros Hl. exists (id r, product r). split; [by destruct r|].
    rewrite (merge_sort_Permutation row_le). by apply elem_of_map_to_list.
Qed.

(** ** The serializer [bit_codec] satisfies the laws *)

Lemma pos_of_bits_of_pos p : pos_of_bits (bits_of_pos p) = p.
Proof. induction p as [q IH|q IH|]; simpl; by rewrite ?IH. Qed.

Lemma bit_codec_laws : @JsonLaws bit_codec.
Proof.
  split; simpl.
  - intros v text [= <-]. rewrite pos_of_bits_of_pos. apply decode_encode.
  - intros v. discriminate.
Qed.

(** ** Column domains *)

Lemma column_values_Return p q :
  column_values p = Return q →
  varchar 255 (name p) = Some (name q) ∧ description q = description p ∧
  price q = price p ∧ stock q = stock p ∧
  decimal_10_2_ok (price p) ∧ integer_ok (stock p).
Proof.
  unfold column_values.
  destruct (has_nul (name p) || has_nul (description p)); [discriminate|].
  destruct (varchar 255 (name p)) as [n|]; [|discriminate].
  case_decide as Hok; [|discriminate]. intros [= <-]. simpl. tauto.
Qed.

Lemma column_values_not_404 p : column_values p ≠ Raise NotFound.
Proof.
  unfold column_values.
  destruct (has_nul (name p) || has_nul (description p)); [discriminate|].
  destruct (varchar 255 (name p)); [|discriminate].
  case_decide; discriminate.
Qed.

(** ** The unmatched UPDATE and DELETE *)

Lemma sql_update_missing s product_id p q :
  column_values p = Return q →
  products s !! product_id = None → sql_update product_id p s = (Return None, s).
Proof. unfold sql_update. by intros -> ->. Qed.

Lemma sql_update_found s product_id p q old :
  column_values p = Return q →
  products s !! product_id = Some old →
  sql_update product_id p s =
    (Return (Some (mkRow product_id q)),
     set_products (<[product_id := q]> (products s)) s).
Proof. unfold sql_update. by intros -> ->. Qed.

Lemma sql_update_refused s product_id p e :
  column_values p = Raise e → sql_update product_id p s = (Raise e, s).
Proof. unfold sql_update. by intros ->. Qed.

Lemma update_product_not_found_inv s product_id p :
  (update_product product_id p s).1 = Raise NotFound →
  products s !! product_id = None ∧ ∃ q, column_values p = Return q.
Proof.
  unfold update_product, sql_update.
  destruct (column_values p) as [q|e] eqn:Hcol; simpl.
  - destruct (products s !! product_id); [discriminate|eauto].
  - intros [= ->]. by destruct (column_values_not_404 p).
Qed.

Lemma delete_product_not_found_inv s product_id :
  (delete_product product_id s).1 = Raise NotFound →
  products s !! product_id = None.
Proof.
  unfold delete_product, sql_delete.
  destruct (products s !! product_id); [discriminate|done].
Qed.

Lemma delete_product_missing s product_id :
  products s !! product_id = None →
  delete_product product_id s = (Raise NotFound, s).
Proof. unfold delete_product, sql_delete. by intros ->. Qed.

Lemma update_product_missing s product_id p q :
  column_values p = Return q →
  products s !! product_id = None →
  update_product product_id p s = (Raise NotFound, s).
Proof.
  intros Hcol Hnone. unfold update_product.
  by rewrite (sql_update_missing _ _ _ _ Hcol Hnone).
Qed.

Lemma update_product_refused s product_id p e :
  column_values p = Raise e → update_product product_id p s = (Raise e, s).
Proof.
  intros Hcol. unfold update_product. by rewrite (sql_update_refused _ _ _ _ Hcol).
Qed.




(** C10. When [update_product] or [delete_product] raises the 404, Redis is
    exactly as before the call: no key was deleted. *)
Theorem not_found_keeps_cache s product_id :
  (∀ p, (update_product product_id p s).1 = Raise NotFound →
        redis (update_product product_id p s).2 = redis s) ∧
  ((delete_product product_id s).1 = Raise NotFound →
   redis (delete_product product_id s).2 = redis s).
Proof.
  split.
  - intros p H. apply update_product_not_found_inv in H as (H & q & Hcol).
    by rewrite (update_product_missing _ _ _ _ Hcol H).
  - intros H. apply delete_product_not_found_inv in H.
    by rewrite (delete_product_missing _ _ H).
Qed.

Lemma not_found_keeps_cache_witness :
  redis (update_product 7 laptop one_product_cached).2 = redis one_product_cached ∧
  redis (delete_product 7 one_product_cached).2 = redis one_product_cached.
Proof.
  destruct (not_found_keeps_cache one_product_cached 7) as [Hu Hd].
  split; [apply Hu | apply Hd]; reflexivity.
Defined.

(** ** Stored stock *)

Lemma create_product_returned s p row s' :
  create_product p s = (Return row, s') →
  ∃ q, column_values p = Return q ∧
  products s !! products_id_seq s = None ∧
  row = mkRow (products_id_seq s) q ∧
  products s' = <[products_id_seq s := q]> (products s) ∧
  products_id_seq s' = products_id_seq s + 1 ∧
  redis s' = delete products_all (redis s) ∧
  clock s' = clock s.
Proof.
  unfold create_product, sql_insert.
  destruct (column_values p) as [q|e] eqn:Hcol; [|discriminate].
  destruct (products s !! products_id_seq s) eqn:Hfree; [discriminate|].
  intros [= <- <-]. exists q. done.
Qed.

Lemma update_product_returned s product_id p row s' :
  update_product product_id p s = (Return row, s') →
  ∃ q, column_values p = Return q ∧
  is_Some (products s !! product_id) ∧
  row = mkRow product_id q ∧
  products s' = <[product_id := q]> (products s) ∧
  products_id_seq s' = products_id_seq s ∧
  redis s' = delete products_all (delete (product_key product_id) (redis s)) ∧
  clock s' = clock s.
Proof.
  unfold update_product, sql_update.
  destruct (column_values p) as [q|e] eqn:Hcol; [|discriminate].
  destruct (products s !! product_id) eqn:Hrow; [|discriminate].
  intros [= <- <-]. exists q. eauto 10.
Qed.

(** C7, as the code has it. The row stored by [create_product] or
    [update_product] carries the stock the caller supplied, whatever its
    sign: neither [Product] nor the table constrains it. *)
Theorem stored_stock_is_supplied s p :
  (∀ row s', create_product p s = (Return row, s') →
     stock <$> products s' !! id row = Some (stock p)) ∧
  (∀ product_id row s', update_product product_id p s = (Return row, s') →
     stock <$> products s' !! id row = Some (stock p)).
Proof.
  split.
  - intros row s' H.
    apply create_product_returned in H as (q & Hcol & _ & -> & -> & _).
    apply column_values_Return in Hcol as (_ & _ & _ & <- & _).
    simpl. by rewrite lookup_insert_eq.
  - intros k row s' H.
    apply update_product_returned in H as (q & Hcol & _ & -> & -> & _).
    apply column_values_Return in Hcol as (_ & _ & _ & <- & _).
    simpl. by rewrite lookup_insert_eq.
Qed.

Lemma stored_stock_is_supplied_witness :
  stock <$> products (create_product laptop one_product).2 !! 2 = Some 10 ∧
  stock <$> products (update_product 1 returned_goods one_product).2 !! 1 = Some (-5).
Proof.
  split.
  - apply (proj1 (stored_stock_is_supplied one_product laptop)
             (mkRow 2 laptop) (create_product laptop one_product).2).
    reflexivity.
  - apply (proj2 (stored_stock_is_supplied one_product returned_goods)
             1 (mkRow 1 returned_goods) (update_product 1 returned_goods one_product).2).
    reflexivity.
Defined.

(** C7 as stated fails: creating a product with stock -5 succeeds and the
    table then holds a row whose stock is negative. *)
Lemma create_stores_negative_stock :
  (create_product returned_goods initial).1 = Return (mkRow 1 returned_goods) ∧
  stock <$> products (create_product returned_goods initial).2 !! 1 = Some (-5) ∧
  -5 < 0.
Proof. repeat split. Qed.

(** ** Health check *)

(** C9, as the code has it. The health check has two kinds of response: the
    report [healthy] when both probes succeed, and otherwise one HTTP 500
    whose detail is the message of the first probe that failed. *)
Theorem health_check_two_outcomes pg rd :
  (pg = Up ∧ rd = Up ∧
   health_check pg rd = Return (mkHealth "healthy" "connected" "connected")) ∨
  (∃ e, (pg = Down e ∨ (pg = Up ∧ rd = Down e)) ∧
        health_check pg rd = Raise (HTTPException 500 ("Health check failed: " +:+ e))).
Proof.
  destruct pg as [|e]; [destruct rd as [|e]|]; simpl; eauto 10.
Qed.

(** C9 as stated fails: there is no third status. A failure of the Store and
    a failure of the Cache (same message) give the very same response, and a
    response that carries a status carries ["healthy"]. *)
Lemma health_check_not_ternary :
  health_check (Down "connection refused") Up = health_check Up (Down "connection refused") ∧
  ∀ pg rd report, health_check pg rd = Return report → status report = "healthy".
Proof.
  split; [reflexivity|].
  intros [|e] [|e'] report; simpl; intros [= <-]; reflexivity.
Qed.

(** ** Handlers over any serializer *)

Section handlers.
Context {codec : JsonCodec}.

Lemma r_get_absent key s : redis s !! key = None → r_get key s = None.
Proof. unfold r_get. by intros ->. Qed.

Lemma r_get_Some key s text :
  r_get key s = Some text →
  ∃ expiry, redis s !! key = Some (text, expiry) ∧ clock s < expiry.
Proof.
  unfold r_get. destruct (redis s !! key) as [[t e]|]; [|discriminate].
  case_decide; [|discriminate]. intros [= ->]. eauto.
Qed.

Lemma r_get_fresh key text s :
  r_get key (r_setex key 300 text s) = Some text.
Proof.
  unfold r_get, r_setex. simpl. rewrite lookup_insert_eq.
  case_decide; [done|lia].
Qed.

(** The four ways out of [get_product]. *)
Lemma get_product_hit s product_id c t :
  r_get (product_key product_id) s = Some (String c t) →
  get_product product_id s = (return_cached (String c t), s).
Proof. unfold get_product. by intros ->. Qed.

Lemma get_product_miss_missing s product_id :
  falsy (r_get (product_key product_id) s) →
  products s !! product_id = None →
  get_product product_id s = (Raise NotFound, s).
Proof. unfold get_product, sql_select. intros [-> | ->] ->; done. Qed.

Lemma get_product_miss_found s product_id p text :
  falsy (r_get (product_key product_id) s) →
  products s !! product_id = Some p →
  json_dumps (PyDict (mkRow product_id p)) = Some text →
  get_product product_id s =
    (Return (PyDict (mkRow product_id p)), r_setex (product_key product_id) 300 text s).
Proof.
  unfold get_product, sql_select. intros [-> | ->] -> Hd; simpl; by rewrite Hd.
Qed.

Lemma get_product_miss_rejected s product_id p :
  falsy (r_get (product_key product_id) s) →
  products s !! product_id = Some p →
  json_dumps (PyDict (mkRow product_id p)) = None →
  get_product product_id s = (Raise TypeError, s).
Proof.
  unfold get_product, sql_select. intros [-> | ->] -> Hd; simpl; by rewrite Hd.
Qed.

Lemma get_product_database s product_id p :
  falsy (r_get (product_key product_id) s) →
  products s !! product_id = Some p →
  get_product product_id s =
    match json_dumps (PyDict (mkRow product_id p)) with
    | Some text => (Return (PyDict (mkRow product_id p)),
                    r_setex (product_key product_id) 300 text s)
    | None => (Raise TypeError, s)
    end.
Proof.
  intros Hmiss Hrow. destruct (json_dumps _) as [text|] eqn:Hd.
  - by apply get_product_miss_found.
  - by apply (get_product_miss_rejected _ _ p).
Qed.

Lemma return_cached_not_404 text : return_cached text ≠ Raise NotFound.
Proof. unfold return_cached. by destruct (json_loads text). Qed.

(** The two readers leave the table, the sequence and the clock alone. *)
Lemma get_product_store s product_id :
  products (get_product product_id s).2 = products s ∧
  products_id_seq (get_product product_id s).2 = products_id_seq s ∧
  clock (get_product product_id s).2 = clock s.
Proof.
  unfold get_product, sql_select.
  destruct (r_get _ s) as [[|c t]|]; destruct (products s !! product_id); simpl;
    try done; destruct (json_dumps _); done.
Qed.

Lemma list_products_store s use_cache :
  products (list_products use_cache s).2 = products s ∧
  products_id_seq (list_products use_cache s).2 = products_id_seq s ∧
  clock (list_products use_cache s).2 = clock s.
Proof.
  unfold list_products.
  destruct use_cache; [destruct (r_get _ s) as [[|c t]|]|];
    try done; destruct (json_dumps _); done.
Qed.

(** What each handler does to Redis. *)
Lemma get_product_redis s product_id :
  redis (get_product product_id s).2 = redis s ∨
  ∃ p text, products s !! product_id = Some p ∧
            json_dumps (PyDict (mkRow product_id p)) = Some text ∧
            redis (get_product product_id s).2 =
              <[product_key product_id := (text, clock s + 300)]> (redis s).
Proof.
  unfold get_product, sql_select.
  destruct (r_get _ s) as [[|c t]|]; destruct (products s !! product_id) eqn:E;
    simpl; eauto; destruct (json_dumps _) eqn:Hd; simpl; eauto 10.
Qed.

Lemma list_products_redis s use_cache :
  redis (list_products use_cache s).2 = redis s ∨
  ∃ text, json_dumps (PyList (sql_select_all s)) = Some text ∧
          redis (list_products use_cache s).2 =
            <[products_all := (text, clock s + 300)]> (redis s).
Proof.
  unfold list_products.
  destruct use_cache; [destruct (r_get _ s) as [[|c t]|]|]; simpl; eauto;
    destruct (json_dumps _) eqn:Hd; simpl; eauto.
Qed.

Lemma create_product_redis s p :
  redis (create_product p s).2 = redis s ∨
  redis (create_product p s).2 = delete products_all (redis s).
Proof.
  unfold create_product, sql_insert.
  destruct (column_values p); simpl; [|eauto].
  destruct (products s !! products_id_seq s); simpl; eauto.
Qed.

Lemma update_product_redis s product_id p :
  redis (update_product product_id p s).2 = redis s ∨
  redis (update_product product_id p s).2 =
    delete products_all (delete (product_key product_id) (redis s)).
Proof.
  unfold update_product, sql_update.
  destruct (column_values p); simpl; [|eauto].
  destruct (products s !! product_id); simpl; eauto.
Qed.

Lemma delete_product_redis s product_id :
  redis (delete_product product_id s).2 = redis s ∨
  redis (delete_product product_id s).2 =
    delete products_all (delete (product_key product_id) (redis s)).
Proof.
  unfold delete_product, sql_delete.
  destruct (products s !! product_id); simpl; eauto.
Qed.

(** C6. A request on the write path leaves in Redis only entries that were
    there before it (it can delete keys, it sets none); an entry that is new
    or changed after an event was written by one of the two GET routes. *)
Theorem write_path_only_deletes s e :
  (write_path e = true → redis (exec e s) ⊆ redis s) ∧
  (∀ key entry, redis (exec e s) !! key = Some entry → redis s !! key ≠ Some entry →
     (∃ use_cache, e = GET_products use_cache) ∨ (∃ product_id, e = GET_product product_id)).
Proof.
  assert (Hdel2 : ∀ a b, delete a (delete b (redis s)) ⊆ redis s).
  { intros a b. etrans; apply delete_subseteq. }
  assert (Hw : write_path e = true → redis (exec e s) ⊆ redis s).
  { destruct e as [p|uc|k|k p|k|d]; simpl; try discriminate; intros _.
    - destruct (create_product_redis s p) as [-> | ->]; [done|apply delete_subseteq].
    - destruct (update_product_redis s k p) as [-> | ->]; [done|apply Hdel2].
    - destruct (delete_product_redis s k) as [-> | ->]; [done|apply Hdel2]. }
  split; [exact Hw|].
  intros key entry Hnew Hold.
  destruct e as [p|uc|k|k p|k|d]; eauto;
    exfalso; apply Hold.
  - eapply lookup_weaken; [exact Hnew|by apply Hw].
  - eapply lookup_weaken; [exact Hnew|by apply Hw].
  - eapply lookup_weaken; [exact Hnew|by apply Hw].
  - exact Hnew.
Qed.

(** ** Freshness after a write *)

Lemma get_product_reads_store s product_id p :
  redis s !! product_key product_id = None →
  products s !! product_id = Some p →
  (∀ v, (get_product product_id s).1 = Return v → v = PyDict (mkRow product_id p)) ∧
  (serializable (PyDict (mkRow product_id p)) →
   (get_product product_id s).1 = Return (PyDict (mkRow product_id p))).
Proof.
  intros Hkey Hrow.
  assert (Hmiss : falsy (r_get (product_key product_id) s)).
  { left. by apply r_get_absent. }
  destruct (json_dumps (PyDict (mkRow product_id p))) as [text|] eqn:Hd.
  - rewrite (get_product_miss_found s product_id p text) by done. simpl.
    split; [by intros v [= <-]|done].
  - rewrite (get_product_miss_rejected s product_id p) by done. simpl.
    split; [discriminate|]. unfold serializable. rewrite Hd. by intros [? ?].
Qed.

Lemma get_product_reads_nothing s product_id :
  redis s !! product_key product_id = None →
  products s !! product_id = None →
  get_product product_id s = (Raise NotFound, s).
Proof.
  intros Hkey Hrow. apply get_product_miss_missing; [|done].
  left. by apply r_get_absent.
Qed.

Lemma update_product_found s product_id p q old :
  column_values p = Return q →
  products s !! product_id = Some old →
  update_product product_id p s =
    (Return (mkRow product_id q),
     r_delete products_all (r_delete (product_key product_id)
       (set_products (<[product_id := q]> (products s)) s))).
Proof.
  intros Hcol Hrow. unfold update_product.
  by rewrite (sql_update_found _ _ _ _ _ Hcol Hrow).
Qed.

Lemma delete_product_returned s product_id msg :
  (delete_product product_id s).1 = Return msg →
  is_Some (products s !! product_id) ∧
  (delete_product product_id s).2 =
    r_delete products_all (r_delete (product_key product_id)
      (set_products (delete product_id (products s)) s)).
Proof.
  unfold delete_product, sql_delete.
  destruct (products s !! product_id); [eauto|discriminate].
Qed.

(** ** Deleted identifiers stay deleted *)

Lemma create_product_store s p :
  (products (create_product p s).2 = products s ∨
   ∃ q, products s !! products_id_seq s = None ∧
        products_id_seq (create_product p s).2 = products_id_seq s + 1 ∧
        products (create_product p s).2 = <[products_id_seq s := q]> (products s)) ∧
  products_id_seq s ≤ products_id_seq (create_product p s).2 ∧
  clock (create_product p s).2 = clock s.
Proof.
  unfold create_product, sql_insert.
  destruct (column_values p) as [q|e]; simpl; [|split; [auto|split; [lia|done]]].
  destruct (products s !! products_id_seq s); simpl.
  - split; [auto|]. split; [lia|done].
  - split; [right; eauto|]. split; [lia|done].
Qed.

Lemma update_product_store s product_id p :
  (products (update_product product_id p s).2 = products s ∨
   ∃ q, is_Some (products s !! product_id) ∧
        products (update_product product_id p s).2 = <[product_id := q]> (products s)) ∧
  products_id_seq (update_product product_id p s).2 = products_id_seq s ∧
  clock (update_product product_id p s).2 = clock s.
Proof.
  unfold update_product, sql_update.
  destruct (column_values p) as [q|e]; simpl; [|auto].
  destruct (products s !! product_id); simpl; eauto 8.
Qed.

Lemma delete_product_store s product_id :
  (products (delete_product product_id s).2 = products s ∨
   products (delete_product product_id s).2 = delete product_id (products s)) ∧
  products_id_seq (delete_product product_id s).2 = products_id_seq s ∧
  clock (delete_product product_id s).2 = clock s.
Proof.
  unfold delete_product, sql_delete.
  destruct (products s !! product_id); simpl; eauto.
Qed.

Lemma lookup_delete_two_None {V} (m : gmap string V) a b key :
  m !! key = None → delete a (delete b m) !! key = None.
Proof. intros Hm. rewrite !lookup_delete_None. auto. Qed.

Lemma gone_exec product_id e s : gone product_id s → gone product_id (exec e s).
Proof.
  intros (Hrow & Hseq & Hkey). unfold gone.
  destruct e as [p|uc|k|k p|k|d]; simpl.
  - assert (Hk : redis (create_product p s).2 !! product_key product_id = None).
    { destruct (create_product_redis s p) as [-> | ->]; [done|].
      rewrite lookup_delete_None. auto. }
    destruct (create_product_store s p) as ([-> | (q & _ & _ & ->)] & Hmono & _);
      (split; [|split; [lia|done]]); [done|].
    rewrite lookup_insert_ne by lia. done.
  - destruct (list_products_store s uc) as (-> & -> & _).
    split; [done|]. split; [done|].
    destruct (list_products_redis s uc) as [-> | (text & _ & ->)]; [done|].
    rewrite lookup_insert_ne; [done|]. symmetry. apply product_key_not_all.
  - destruct (get_product_store s k) as (-> & -> & _).
    split; [done|]. split; [done|].
    destruct (get_product_redis s k) as [-> | (p & text & Hp & _ & ->)]; [done|].
    rewrite lookup_insert_ne; [done|].
    intros Heq. apply product_key_inj in Heq. congruence.
  - destruct (update_product_store s k p) as ([-> | (q & [old Hold] & ->)] & -> & _);
      (split; [|split; [done|]]); try done.
    + destruct (update_product_redis s k p) as [-> | ->]; [done|].
      by apply lookup_delete_two_None.
    + rewrite lookup_insert_ne; [done|]. congruence.
    + destruct (update_product_redis s k p) as [-> | ->]; [done|].
      by apply lookup_delete_two_None.
  - destruct (delete_product_store s k) as ([-> | ->] & -> & _);
      (split; [|split; [done|]]); try done.
    + destruct (delete_product_redis s k) as [-> | ->]; [done|].
      by apply lookup_delete_two_None.
    + rewrite lookup_delete_None. auto.
    + destruct (delete_product_redis s k) as [-> | ->]; [done|].
      by apply lookup_delete_two_None.
  - done.
Qed.

Lemma gone_run product_id es s : gone product_id s → gone product_id (run es s).
Proof. invariant_of_run es s gone_exec. Qed.

(** C2. After a successful [delete_product], [get_product] on that
    identifier raises the 404, whatever was cached for it before the
    deletion: at once or after any delay, and, when identifiers come from the
    sequence, after any further run of the service. *)
Theorem delete_then_get_not_found s product_id :
  (delete_product product_id s).1 = Return "Product deleted successfully" →
  let s' := (delete_product product_id s).2 in
  redis s' !! product_key product_id = None ∧
  redis s' !! products_all = None ∧
  (∀ d, (get_product product_id (elapse d s')).1 = Raise NotFound) ∧
  (seq_ok s → ∀ es, (get_product product_id (run es s')).1 = Raise NotFound).
Proof.
  intros Hdel s'. subst s'.
  apply delete_product_returned in Hdel as [[old Hold] ->]. simpl.
  assert (Hk : delete products_all (delete (product_key product_id) (redis s))
                 !! product_key product_id = None).
  { rewrite lookup_delete_None. right. apply lookup_delete_eq. }
  split; [exact Hk|]. split; [apply lookup_delete_eq|]. split.
  - intros d. rewrite get_product_reads_nothing; simpl;
      [done|exact Hk|apply lookup_delete_eq].
  - intros Hseq es.
    match goal with |- context [run es ?st] =>
      assert (Hgone : gone product_id st) end.
    { split; [apply lookup_delete_eq|]. split; [by apply (Hseq _ old)|exact Hk]. }
    apply (gone_run _ es) in Hgone as (Hrow & _ & Hkey).
    by rewrite get_product_reads_nothing.
Qed.

(** ** Misses of [get_product] *)

(** In a state where no key holds the empty text, [get_product] raises the
    404 exactly when [r.get] finds nothing under the per-identifier key and
    the table has no row for the identifier. *)
Theorem get_product_404_iff s product_id :
  texts_truthy s →
  ((get_product product_id s).1 = Raise NotFound ↔
     r_get (product_key product_id) s = None ∧ products s !! product_id = None).
Proof.
  intros Htruthy. split.
  - intros Hraise.
    destruct (r_get (product_key product_id) s) as [[|c t]|] eqn:Hget.
    + apply r_get_Some in Hget as (e & Hentry & _).
      by destruct (Htruthy _ _ _ Hentry).
    + rewrite (get_product_hit _ _ _ _ Hget) in Hraise. simpl in Hraise.
      by destruct (return_cached_not_404 _ Hraise).
    + split; [done|].
      destruct (products s !! product_id) as [p|] eqn:Hrow; [|done].
      assert (Hmiss : falsy (r_get (product_key product_id) s)).
      { left. done. }
      destruct (json_dumps (PyDict (mkRow product_id p))) as [text|] eqn:Hd.
      * rewrite (get_product_miss_found s product_id p text) in Hraise by done.
        discriminate Hraise.
      * rewrite (get_product_miss_rejected s product_id p) in Hraise by done.
        discriminate Hraise.
  - intros [Hget Hrow]. rewrite get_product_miss_missing; [done| |done].
    by left.
Qed.

(** ** Invariants of a run *)

Lemma seq_ok_exec e s : seq_ok s → seq_ok (exec e s).
Proof.
  unfold seq_ok. intros Hseq k q.
  destruct e as [p|uc|j|j p|j|d]; simpl.
  - destruct (create_product_store s p) as ([-> | (r & _ & -> & ->)] & Hmono & _).
    + intros Hk. specialize (Hseq _ _ Hk). lia.
    + rewrite lookup_insert. case_decide; [lia|].
      intros Hk. specialize (Hseq _ _ Hk). lia.
  - destruct (list_products_store s uc) as (-> & -> & _). apply Hseq.
  - destruct (get_product_store s j) as (-> & -> & _). apply Hseq.
  - destruct (update_product_store s j p) as ([-> | (r & [old Hold] & ->)] & -> & _).
    + apply Hseq.
    + rewrite lookup_insert. case_decide as Hj; [|apply Hseq].
      intros _. subst. by apply (Hseq _ old).
  - destruct (delete_product_store s j) as ([-> | ->] & -> & _).
    + apply Hseq.
    + rewrite lookup_delete_Some. intros [_ Hk]. by apply (Hseq _ q).
  - apply Hseq.
Qed.

(** Where an entry of Redis after an event comes from. *)
Lemma exec_redis_cases e s key entry :
  redis (exec e s) !! key = Some entry →
  redis s !! key = Some entry ∨
  (∃ uc text, e = GET_products uc ∧ key = products_all ∧
              json_dumps (PyList (sql_select_all s)) = Some text ∧
              entry = (text, clock s + 300)) ∨
  (∃ j p text, e = GET_product j ∧ key = product_key j ∧
               products s !! j = Some p ∧
               json_dumps (PyDict (mkRow j p)) = Some text ∧
               entry = (text, clock s + 300)).
Proof.
  assert (Hsub : ∀ m : gmap string (string * Z),
            m ⊆ redis s → m !! key = Some entry → redis s !! key = Some entry).
  { intros m Hm Hl. by eapply lookup_weaken. }
  assert (Hdel2 : ∀ a b, delete a (delete b (redis s)) ⊆ redis s).
  { intros a b. etrans; apply delete_subseteq. }
  destruct e as [p|uc|j|j p|j|d]; simpl.
  - destruct (create_product_redis s p) as [-> | ->]; [auto|].
    intros Hl. left. eapply Hsub; [apply delete_subseteq|done].
  - destruct (list_products_redis s uc) as [-> | (text & Hd & ->)]; [auto|].
    rewrite lookup_insert. case_decide as Hk; [|auto].
    intros [= <-]. right. left. eauto 10.
  - destruct (get_product_redis s j) as [-> | (p & text & Hp & Hd & ->)]; [auto|].
    rewrite lookup_insert. case_decide as Hk; [|auto].
    intros [= <-]. right. right. eauto 10.
  - destruct (update_product_redis s j p) as [-> | ->]; [auto|].
    intros Hl. left. eapply Hsub; [apply Hdel2|done].
  - destruct (delete_product_redis s j) as [-> | ->]; [auto|].
    intros Hl. left. eapply Hsub; [apply Hdel2|done].
  - auto.
Qed.

Lemma listing_ok_exec e s : listing_ok s → listing_ok (exec e s).
Proof.
  intros Hok text expiry Hl.
  apply exec_redis_cases in Hl
    as [Hl | [(uc & t & _ & _ & Hd & [= -> _]) | (j & p & t & _ & Hk & _)]].
  - by apply (Hok _ expiry).
  - eexists. split; [exact Hd|]. apply sql_select_all_ascending.
  - symmetry in Hk. by destruct (product_key_not_all _ Hk).
Qed.

Lemma listing_ok_run es s : listing_ok s → listing_ok (run es s).
Proof. invariant_of_run es s listing_ok_exec. Qed.

Lemma seq_ok_run es s : seq_ok s → seq_ok (run es s).
Proof. invariant_of_run es s seq_ok_exec. Qed.

Lemma exec_seq_mono e s : products_id_seq s ≤ products_id_seq (exec e s).
Proof.
  destruct e as [p|uc|j|j p|j|d]; simpl.
  - by destruct (create_product_store s p) as (_ & ? & _).
  - by destruct (list_products_store s uc) as (_ & -> & _).
  - by destruct (get_product_store s j) as (_ & -> & _).
  - by destruct (update_product_store s j p) as (_ & -> & _).
  - by destruct (delete_product_store s j) as (_ & -> & _).
  - done.
Qed.

Lemma keys_assigned_exec e s :
  seq_ok s → keys_assigned s → keys_assigned (exec e s).
Proof.
  intros Hseq Hkeys k entry Hl. pose proof (exec_seq_mono e s) as Hmono.
  apply exec_redis_cases in Hl
    as [Hl | [(uc & t & _ & Hk & _) | (j & p & t & _ & Hk & Hrow & _)]].
  - specialize (Hkeys _ _ Hl). lia.
  - by destruct (product_key_not_all _ Hk).
  - apply product_key_inj in Hk as ->. specialize (Hseq _ _ Hrow). lia.
Qed.

Lemma run_from_initial es :
  seq_ok (run es initial) ∧ keys_assigned (run es initial).
Proof.
  assert (Hgen : ∀ s, seq_ok s ∧ keys_assigned s →
                      seq_ok (run es s) ∧ keys_assigned (run es s)).
  { induction es as [|e es IH]; intros s [Hseq Hkeys]; simpl; [done|].
    apply IH. split; [by apply seq_ok_exec|by apply keys_assigned_exec]. }
  apply Hgen. split.
  - intros k p. unfold initial; simpl. by rewrite lookup_empty.
  - intros k entry. unfold initial; simpl. by rewrite lookup_empty.
Qed.

(** After any run of the service from the initial state, [create_product]
    with fields the columns accept returns a row made of a new identifier
    (it has no row, and is above every identifier that has one) and the
    stored fields, and the table then holds that row. [get_product] on that
    identifier then reads the table: it returns this row and caches its dump
    when [json.dumps] accepts the row, and raises [TypeError] with nothing
    cached when it does not. *)
Theorem create_then_get es p q :
  column_values p = Return q →
  let s := run es initial in
  ∃ row s', create_product p s = (Return row, s') ∧
            product row = q ∧
            products s !! id row = None ∧
            (∀ k r, products s !! k = Some r → k < id row) ∧
            products s' !! id row = Some q ∧
            get_product (id row) s' =
              match json_dumps (PyDict row) with
              | Some text => (Return (PyDict row),
                              r_setex (product_key (id row)) 300 text s')
              | None => (Raise TypeError, s')
              end.
Proof.
  intros Hcol s. destruct (run_from_initial es) as [Hseq Hkeys].
  fold s in Hseq, Hkeys.
  assert (Hfree : products s !! products_id_seq s = None).
  { destruct (products s !! products_id_seq s) as [r|] eqn:Hr; [|done].
    specialize (Hseq _ _ Hr). lia. }
  exists (mkRow (products_id_seq s) q). eexists.
  split; [|split; [done|split; [done|split; [exact Hseq|]]]].
  - unfold create_product, sql_insert. rewrite Hcol, Hfree. reflexivity.
  - simpl. split; [apply lookup_insert_eq|].
    apply get_product_database; simpl.
    + left. apply r_get_absent. simpl. rewrite lookup_delete_None. right.
      destruct (redis s !! product_key (products_id_seq s)) as [entry|] eqn:Hk; [|done].
      specialize (Hkeys _ _ Hk). lia.
    + apply lookup_insert_eq.
Qed.

(** ** Invalidate on write *)

(** An event that changes the row of an identifier leaves no cache key for
    that identifier, and an event that changes the table leaves no aggregate
    key. *)
Lemma exec_invalidates e s :
  seq_ok s → keys_assigned s →
  (products (exec e s) = products s ∨ redis (exec e s) !! products_all = None) ∧
  (∀ k, products (exec e s) !! k = products s !! k ∨
        redis (exec e s) !! product_key k = None).
Proof.
  intros Hseq Hkeys.
  destruct e as [p|uc|j|j p|j|d]; simpl.
  - unfold create_product, sql_insert.
    destruct (column_values p) as [q|]; simpl; [|auto].
    destruct (products s !! products_id_seq s) eqn:Hfree; simpl; [auto|].
    split; [right; apply lookup_delete_eq|].
    intros k. destruct (decide (k = products_id_seq s)) as [->|Hne].
    + right. rewrite lookup_delete_None. right.
      destruct (redis s !! product_key (products_id_seq s)) as [entry|] eqn:Hk; [|done].
      specialize (Hkeys _ _ Hk). lia.
    + left. by rewrite lookup_insert_ne.
  - destruct (list_products_store s uc) as (-> & _). auto.
  - destruct (get_product_store s j) as (-> & _). auto.
  - unfold update_product, sql_update.
    destruct (column_values p) as [q|]; simpl; [|auto].
    destruct (products s !! j) eqn:Hrow; simpl; [|auto].
    split; [right; apply lookup_delete_eq|].
    intros k. destruct (decide (k = j)) as [->|Hne].
    + right. rewrite lookup_delete_None. right. apply lookup_delete_eq.
    + left. by rewrite lookup_insert_ne.
  - unfold delete_product, sql_delete.
    destruct (products s !! j) eqn:Hrow; simpl; [|auto].
    split; [right; apply lookup_delete_eq|].
    intros k. destruct (decide (k = j)) as [->|Hne].
    + right. rewrite lookup_delete_None. right. apply lookup_delete_eq.
    + left. by rewrite lookup_delete_ne.
  - auto.
Qed.

Lemma coherent_keys_assigned s : seq_ok s → coherent s → keys_assigned s.
Proof.
  intros Hseq [Hrows _] k [text expiry] Hk.
  destruct (Hrows _ _ _ Hk) as (p & Hp & _). by apply (Hseq _ p).
Qed.

Lemma sql_select_all_same s s' :
  products s' = products s → sql_select_all s' = sql_select_all s.
Proof. unfold sql_select_all. by intros ->. Qed.

Lemma coherent_exec e s : seq_ok s → coherent s → coherent (exec e s).
Proof.
  intros Hseq Hco. pose proof (coherent_keys_assigned s Hseq Hco) as Hkeys.
  destruct (exec_invalidates e s Hseq Hkeys) as [Hall Hrow].
  destruct Hco as [Hrows Hlist]. split.
  - intros k text expiry Hl. pose proof Hl as Hl'.
    apply exec_redis_cases in Hl
      as [Hl | [(uc & t & _ & Hk & _) | (j & p & t & -> & Hk & Hp & Hd & [= -> _])]].
    + destruct (Hrow k) as [Heq | Hnone]; [|congruence].
      rewrite Heq. by apply (Hrows _ _ expiry).
    + by destruct (product_key_not_all _ Hk).
    + apply product_key_inj in Hk as ->. exists p. split; [|done].
      simpl. by rewrite (proj1 (get_product_store s j)).
  - intros text expiry Hl. pose proof Hl as Hl'.
    apply exec_redis_cases in Hl
      as [Hl | [(uc & t & -> & _ & Hd & [= -> _]) | (j & p & t & _ & Hk & _)]].
    + destruct Hall as [Heq | Hnone]; [|congruence].
      rewrite (sql_select_all_same _ _ Heq). by apply (Hlist _ expiry).
    + rewrite (sql_select_all_same s); [done|].
      simpl. by destruct (list_products_store s uc) as (-> & _).
    + symmetry in Hk. by destruct (product_key_not_all _ Hk).
Qed.

Lemma coherent_run_from_initial es :
  seq_ok (run es initial) ∧ coherent (run es initial).
Proof.
  assert (Hgen : ∀ s, seq_ok s ∧ coherent s →
                      seq_ok (run es s) ∧ coherent (run es s)).
  { induction es as [|e es IH]; intros s [Hseq Hco]; simpl; [done|].
    apply IH. split; [by apply seq_ok_exec|by apply coherent_exec]. }
  apply Hgen. split; [|split].
  - intros k p. unfold initial; simpl. by rewrite lookup_empty.
  - intros k text expiry. unfold initial; simpl. by rewrite lookup_empty.
  - intros text expiry. unfold initial; simpl. by rewrite lookup_empty.
Qed.

Section with_laws.
Context {laws : JsonLaws}.

Lemma texts_truthy_exec e s : texts_truthy s → texts_truthy (exec e s).
Proof.
  intros Hok key text expiry Hl.
  apply exec_redis_cases in Hl
    as [Hl | [(uc & t & _ & _ & Hd & [= -> _]) | (j & p & t & _ & _ & _ & Hd & [= -> _])]].
  - by apply (Hok key _ expiry).
  - intros ->. by apply (json_dumps_truthy _ Hd).
  - intros ->. by apply (json_dumps_truthy _ Hd).
Qed.

Lemma texts_truthy_run es s : texts_truthy s → texts_truthy (run es s).
Proof. invariant_of_run es s texts_truthy_exec. Qed.

(** The three ways out of [list_products]. *)
Lemma list_products_hit s c t :
  r_get products_all s = Some (String c t) →
  list_products true s = (return_cached (String c t), s).
Proof. unfold list_products. by intros ->. Qed.

Lemma list_products_database s use_cache :
  use_cache = false ∨ falsy (r_get products_all s) →
  list_products use_cache s =
    match json_dumps (PyList (sql_select_all s)) with
    | Some text => (Return (PyList (sql_select_all s)), r_setex products_all 300 text s)
    | None => (Raise TypeError, s)
    end.
Proof.
  unfold list_products. intros [-> | [Hg | Hg]]; [done| |];
    destruct use_cache; try done; by rewrite Hg.
Qed.

(** Two listings in a row: the second [list_products] with [use_cache] gives
    the same response as the first and changes nothing. *)
Theorem list_products_twice s :
  let s1 := (list_products true s).2 in
  list_products true s1 = ((list_products true s).1, s1).
Proof.
  intros s1. subst s1.
  assert (Hmiss : falsy (r_get products_all s) →
    list_products true (list_products true s).2
    = ((list_products true s).1, (list_products true s).2)).
  { intros Hf. rewrite (list_products_database s true) by auto.
    destruct (json_dumps (PyList (sql_select_all s))) as [text|] eqn:Hd; cbn [fst snd].
    - destruct text as [|c t]; [by destruct (json_dumps_truthy _ Hd)|].
      rewrite (list_products_hit _ c t) by apply r_get_fresh.
      unfold return_cached. by rewrite (json_loads_dumps _ _ Hd).
    - rewrite (list_products_database s true) by auto. by rewrite Hd. }
  destruct (r_get products_all s) as [[|c t]|] eqn:Hget.
  - apply Hmiss. by right.
  - rewrite (list_products_hit s c t Hget). cbn [fst snd]. by apply list_products_hit.
  - apply Hmiss. by left.
Qed.


(** Every state the service reaches from the initial one satisfies the four
    invariants. *)
Theorem run_invariants es :
  let s := run es initial in
  seq_ok s ∧ keys_assigned s ∧ listing_ok s ∧ texts_truthy s.
Proof.
  intros s. subst s. destruct (run_from_initial es) as [Hseq Hkeys].
  split; [done|]. split; [done|]. split.
  - apply listing_ok_run. intros text expiry. unfold initial; simpl.
    by rewrite lookup_empty.
  - apply texts_truthy_run. intros k text expiry. unfold initial; simpl.
    by rewrite lookup_empty.
Qed.

End with_laws.
End handlers.

(** ** The theorems at sample states *)

Lemma seq_ok_one_product_cached : seq_ok one_product_cached.
Proof.
  intros k p. unfold one_product_cached; simpl.
  rewrite lookup_singleton_Some. intros [<- _]. lia.
Qed.

Lemma texts_truthy_one_product_cached : texts_truthy one_product_cached.
Proof.
  intros k text expiry. unfold one_product_cached; simpl.
  rewrite lookup_insert_Some, lookup_singleton_Some.
  intros [[_ [= <- _]] | [_ [_ [= <- _]]]]; discriminate.
Qed.

Lemma listing_ok_initial `{!JsonCodec} : listing_ok initial.
Proof. intros text expiry. unfold initial; simpl. by rewrite lookup_empty. Qed.

Section with_bit_codec.
#[local] Existing Instance bit_codec.

Lemma delete_then_get_not_found_witness :
  (get_product 1
     (run [POST_products laptop; GET_products true; Elapse 400; GET_product 1]
          (delete_product 1 one_product_cached).2)).1
  = Raise NotFound.
Proof.
  apply (delete_then_get_not_found one_product_cached 1);
    [reflexivity | apply seq_ok_one_product_cached].
Defined.

Lemma write_path_only_deletes_witness :
  redis (exec (PUT_product 1 discounted) one_product_cached) ⊆ redis one_product_cached.
Proof.
  apply (write_path_only_deletes one_product_cached (PUT_product 1 discounted)).
  reflexivity.
Defined.

Lemma list_products_twice_witness :
  list_products true (list_products true one_product).2
  = ((list_products true one_product).1, (list_products true one_product).2).
Proof. apply (list_products_twice (laws := bit_codec_laws) one_product). Defined.

Lemma run_invariants_witness :
  seq_ok (run [POST_products laptop; GET_product 1; DELETE_product 1] initial) ∧
  keys_assigned (run [POST_products laptop; GET_product 1; DELETE_product 1] initial) ∧
  listing_ok (run [POST_products laptop; GET_product 1; DELETE_product 1] initial) ∧
  texts_truthy (run [POST_products laptop; GET_product 1; DELETE_product 1] initial).
Proof.
  apply (run_invariants (laws := bit_codec_laws)
           [POST_products laptop; GET_product 1; DELETE_product 1]).
Defined.


End with_bit_codec.

(** ** How the writes compose *)

Section composition.
Context {codec : JsonCodec}.

Lemma run_seq_mono es s : products_id_seq s ≤ products_id_seq (run es s).
Proof.
  revert s. induction es as [|e es IH]; intros s; simpl; [done|].
  etrans; [apply (exec_seq_mono e s)|apply IH].
Qed.

(** [create_product] never hands out an identifier twice: the identifier it
    returns is smaller than the one any later [create_product] returns,
    whatever runs in between. *)
Theorem create_ids_increase s p es p' row1 s1 row2 s2 :
  create_product p s = (Return row1, s1) →
  create_product p' (run es s1) = (Return row2, s2) →
  id row1 < id row2.
Proof.
  intros H1 H2.
  apply create_product_returned in H1 as (q & _ & _ & -> & _ & Hseq1 & _).
  apply create_product_returned in H2 as (q' & _ & _ & -> & _).
  simpl. pose proof (run_seq_mono es s1). lia.
Qed.

Lemma state_eq s s' :
  products s = products s' → products_id_seq s = products_id_seq s' →
  redis s = redis s' → clock s = clock s' → s = s'.
Proof. destruct s, s'; simpl. by intros -> -> -> ->. Qed.

Lemma delete_two_idemp {V} (m : gmap string V) a b :
  delete a (delete b (delete a (delete b m))) = delete a (delete b m).
Proof.
  apply map_eq. intros k. rewrite !lookup_delete.
  repeat case_decide; done.
Qed.


(** The last update wins: when the fields of the second update are within
    the column domains, updating a row twice gives the response and the state
    of the second update alone, whatever the first update did (with the same
    fields twice: updating is idempotent). *)
Theorem update_overwrites s product_id p1 p2 q2 :
  column_values p2 = Return q2 →
  update_product product_id p2 (update_product product_id p1 s).2
  = update_product product_id p2 s.
Proof.
  intros H2. destruct (column_values p1) as [q1|e1] eqn:H1.
  - destruct (products s !! product_id) as [old|] eqn:Hrow.
    + rewrite (update_product_found s product_id p1 q1 old H1 Hrow). simpl.
      rewrite (update_product_found s product_id p2 q2 old H2 Hrow).
      erewrite update_product_found; [|exact H2|simpl; apply lookup_insert_eq].
      f_equal. apply state_eq; simpl; try done.
      * apply insert_insert_eq.
      * apply delete_two_idemp.
    + by rewrite (update_product_missing s product_id p1 q1 H1 Hrow).
  - by rewrite (update_product_refused s product_id p1 e1 H1).
Qed.


End composition.

(** ** What a write leaves alone *)

Section frames.
Context {codec : JsonCodec}.

(** [update_product] and [delete_product] on one identifier leave the row and
    the cache key of every other identifier as they were; [create_product]
    leaves every existing row and every key but the aggregate one as they
    were. *)
Theorem writes_touch_one_identifier s product_id k :
  k ≠ product_id →
  (∀ p, products (update_product product_id p s).2 !! k = products s !! k ∧
        redis (update_product product_id p s).2 !! product_key k
        = redis s !! product_key k) ∧
  (products (delete_product product_id s).2 !! k = products s !! k ∧
   redis (delete_product product_id s).2 !! product_key k
   = redis s !! product_key k) ∧
  (∀ p, (k ≠ products_id_seq s →
         products (create_product p s).2 !! k = products s !! k) ∧
        ∀ key, key ≠ products_all →
               redis (create_product p s).2 !! key = redis s !! key).
Proof.
  intros Hne.
  assert (Hkey : product_key product_id ≠ product_key k).
  { intros Heq. apply product_key_inj in Heq. congruence. }
  assert (Hall : products_all ≠ product_key k).
  { intros Heq. symmetry in Heq. by destruct (product_key_not_all _ Heq). }
  split; [|split].
  - intros p. unfold update_product, sql_update.
    destruct (column_values p); simpl; [|done].
    destruct (products s !! product_id); simpl; [|done].
    by rewrite lookup_insert_ne, !lookup_delete_ne.
  - unfold delete_product, sql_delete.
    destruct (products s !! product_id); simpl; [|done].
    by rewrite !lookup_delete_ne.
  - intros p. unfold create_product, sql_insert.
    destruct (column_values p); simpl; [|done].
    destruct (products s !! products_id_seq s); simpl.
    + done.
    + split.
      * intros Hk. by rewrite lookup_insert_ne.
      * intros key Hk. by rewrite lookup_delete_ne.
Qed.


End frames.

(** ** Expiry *)

Section expiry.
Context {codec : JsonCodec}.

(** A text written by [r.setex] with a positive time-to-live is read back by
    [r.get] until [ttl] seconds have passed and is missing from then on;
    [r.delete] makes it missing at once; other keys are not affected. *)
Theorem redis_setex_get_delete s key ttl text d :
  0 < ttl →
  r_get key (elapse d (r_setex key ttl text s))
  = (if decide (Z.of_N d < ttl) then Some text else None) ∧
  r_get key (r_delete key (r_setex key ttl text s)) = None ∧
  ∀ other, other ≠ key →
    r_get other (r_setex key ttl text s) = r_get other s ∧
    r_get other (r_delete key s) = r_get other s.
Proof.
  intros Httl. unfold r_get, r_setex, r_delete, elapse. simpl.
  rewrite lookup_insert_eq, lookup_delete_eq. split; [|split; [done|]].
  - repeat case_decide; try done; lia.
  - intros other Hother. by rewrite lookup_insert_ne, lookup_delete_ne.
Qed.

Lemma exec_clock_mono e s : clock s ≤ clock (exec e s).
Proof.
  destruct e as [p|uc|j|j p|j|d]; simpl.
  - by destruct (create_product_store s p) as (_ & _ & ->).
  - by destruct (list_products_store s uc) as (_ & _ & ->).
  - by destruct (get_product_store s j) as (_ & _ & ->).
  - by destruct (update_product_store s j p) as (_ & _ & ->).
  - by destruct (delete_product_store s j) as (_ & _ & ->).
  - lia.
Qed.

Lemma ttl_bounded_exec e s : ttl_bounded s → ttl_bounded (exec e s).
Proof.
  intros Hb key text expiry Hl. pose proof (exec_clock_mono e s) as Hmono.
  apply exec_redis_cases in Hl
    as [Hl | [(uc & t & _ & _ & _ & [= _ ->]) | (j & p & t & _ & _ & _ & _ & [= _ ->])]].
  - specialize (Hb _ _ _ Hl). lia.
  - lia.
  - lia.
Qed.

Lemma ttl_bounded_run es s : ttl_bounded s → ttl_bounded (run es s).
Proof. invariant_of_run es s ttl_bounded_exec. Qed.

(** Staleness is bounded by the time-to-live. Start from a state where no
    key outlives 300 seconds (the initial state is one), run the service,
    then let the table be changed behind its back to any [t] and 300 seconds
    or more pass without a request: every key reads as missing, and
    [get_product] and [list_products] answer from the table [t]. *)
Theorem idle_cache_expires s0 es t d :
  ttl_bounded s0 → 300 ≤ Z.of_N d →
  let s := elapse d (set_products t (run es s0)) in
  (∀ key, r_get key s = None) ∧
  (∀ product_id, t !! product_id = None →
     get_product product_id s = (Raise NotFound, s)) ∧
  (∀ product_id p v, t !! product_id = Some p →
     (get_product product_id s).1 = Return v → v = PyDict (mkRow product_id p)) ∧
  (∀ use_cache v, (list_products use_cache s).1 = Return v →
     v = PyList (sql_select_all s)).
Proof.
  intros Hb Hd s. apply (ttl_bounded_run es) in Hb.
  assert (Hmiss : ∀ key, r_get key s = None).
  { intros key. subst s. unfold r_get, elapse, set_products. simpl.
    destruct (redis (run es s0) !! key) as [[text expiry]|] eqn:Hk; [|done].
    specialize (Hb _ _ _ Hk). case_decide; [lia|done]. }
  split; [exact Hmiss|]. split; [|split].
  - intros k Hrow. apply get_product_miss_missing; [left; apply Hmiss|exact Hrow].
  - intros k p v Hrow.
    destruct (json_dumps (PyDict (mkRow k p))) as [text|] eqn:Hdump.
    + rewrite (get_product_miss_found s k p text); [|left; apply Hmiss|exact Hrow|done].
      by intros [= <-].
    + rewrite (get_product_miss_rejected s k p); [|left; apply Hmiss|exact Hrow|done].
      discriminate.
  - intros uc v. rewrite (list_products_database s uc) by (right; left; apply Hmiss).
    destruct (json_dumps (PyList (sql_select_all s))); simpl;
      [by intros [= <-]|discriminate].
Qed.

End expiry.

(** ** Reads in a coherent state *)

Section coherence.
Context {codec : JsonCodec} {laws : JsonLaws}.





(** The listing cached by [list_products] is served for 300 seconds whatever
    happens to the table behind the service's back, and not beyond: for a
    delay under 300 seconds the next [list_products] with [use_cache] returns
    the cached listing and changes nothing, even if the table now is any [t];
    from 300 seconds on it reads the table as it does with [use_cache]
    off. *)
Theorem cached_listing_served_until_expiry s text d t :
  falsy (r_get products_all s) →
  json_dumps (PyList (sql_select_all s)) = Some text →
  let s1 := set_products t (elapse d (list_products true s).2) in
  (Z.of_N d < 300 →
   list_products true s1 = (Return (PyList (sql_select_all s)), s1)) ∧
  (300 ≤ Z.of_N d → list_products true s1 = list_products false s1).
Proof.
  intros Hf Hd s1. subst s1.
  rewrite (list_products_database s true) by auto. rewrite Hd. cbn [fst snd].
  match goal with |- context [list_products true ?st] => set (s1 := st) end.
  assert (Hget : r_get products_all s1
                 = if decide (Z.of_N d < 300) then Some text else None).
  { subst s1. unfold r_get, set_products, elapse, r_setex. simpl.
    rewrite lookup_insert_eq. repeat case_decide; try done; lia. }
  split.
  - intros Hlt. rewrite decide_True in Hget by done.
    destruct text as [|c r]; [by destruct (json_dumps_truthy _ Hd)|].
    rewrite (list_products_hit s1 c r Hget).
    unfold return_cached. by rewrite (json_loads_dumps _ _ Hd).
  - intros Hge. rewrite decide_False in Hget by lia.
    rewrite (list_products_database s1 true) by (right; by left).
    by rewrite (list_products_database s1 false) by (by left).
Qed.

(** [list_products] with [use_cache] off never reads Redis: its response is
    the same whatever Redis holds, and when it returns, the listing holds
    every row of the table exactly once, in ascending order of identifier. *)
Theorem list_without_cache_is_table s :
  (∀ c, (list_products false (set_redis c s)).1 = (list_products false s).1) ∧
  (∀ rows, (list_products false s).1 = Return (PyList rows) →
     (∀ r, r ∈ rows ↔ products s !! id r = Some (product r)) ∧
     ascending rows ∧
     length rows = size (products s)).
Proof.
  split.
  - intros c. rewrite !list_products_database by (by left).
    replace (sql_select_all (set_redis c s)) with (sql_select_all s) by done.
    by destruct (json_dumps (PyList (sql_select_all s))).
  - intros rows. rewrite list_products_database by (by left).
    destruct (json_dumps (PyList (sql_select_all s))); simpl; [|discriminate].
    intros [= <-]. split; [apply sql_select_all_rows|].
    split; [apply sql_select_all_ascending|].
    unfold sql_select_all. rewrite length_fmap.
    rewrite (merge_sort_Permutation row_le). apply length_map_to_list.
Qed.

End coherence.

(** ** Creating several products, then listing *)

Section create_many.
Context {codec : JsonCodec}.

Lemma numbered_elem n ps r :
  r ∈ numbered n ps ↔ ∃ i : nat, id r = n + Z.of_nat i ∧ ps !! i = Some (product r).
Proof.
  revert n. induction ps as [|p ps IH]; intros n; simpl.
  - split; [by intros ?%elem_of_nil|by intros (i & _ & ?)].
  - rewrite elem_of_cons, IH. split.
    + intros [-> | (i & Hid & Hp)].
      * exists 0%nat. simpl. split; [lia|done].
      * exists (S i). simpl. split; [lia|done].
    + intros ([|i] & Hid & Hp); simpl in *.
      * left. destruct r as [j q]; simpl in *. injection Hp as ->. f_equal. lia.
      * right. exists i. split; [lia|done].
Qed.

Lemma numbered_ascending n ps : ascending (numbered n ps).
Proof.
  revert n. induction ps as [|p ps IH]; intros n; simpl; constructor.
  - apply IH.
  - apply Forall_forall. intros r Hr.
    apply numbered_elem in Hr as (i & Hid & _). simpl. lia.
Qed.

Lemma ascending_NoDup rows : ascending rows → NoDup rows.
Proof.
  induction 1 as [|r rows Hs IH Hall]; constructor; [|done].
  intros Hin. rewrite Forall_forall in Hall. specialize (Hall _ Hin). lia.
Qed.

Lemma ascending_unique rows1 rows2 :
  ascending rows1 → ascending rows2 →
  (∀ r, r ∈ rows1 ↔ r ∈ rows2) → rows1 = rows2.
Proof.
  intros H1 H2 Helem.
  apply (StronglySorted_unique_strong (λ a b, id a < id b)); try done.
  - intros x1 x2 _ _ ??. lia.
  - apply NoDup_Permutation; auto using ascending_NoDup.
Qed.

(** The table after a run of INSERTs of fields the columns accept. *)
Lemma run_creates ps qs s :
  Forall2 (λ p q, column_values p = Return q) ps qs →
  seq_ok s →
  seq_ok (run (POST_products <$> ps) s) ∧
  products_id_seq (run (POST_products <$> ps) s)
  = products_id_seq s + Z.of_nat (length ps) ∧
  (∀ k q, products (run (POST_products <$> ps) s) !! k = Some q ↔
          products s !! k = Some q ∨
          ∃ i : nat, k = products_id_seq s + Z.of_nat i ∧ qs !! i = Some q) ∧
  (redis s !! products_all = None →
   redis (run (POST_products <$> ps) s) !! products_all = None).
Proof.
  intros Hcols. revert s.
  induction Hcols as [|p0 q0 ps qs Hcol _ IH]; intros s Hseq; simpl.
  - split; [done|]. split; [lia|]. split; [|done].
    intros k q. split; [auto|]. by intros [? | (i & _ & ?)].
  - assert (Hfree : products s !! products_id_seq s = None).
    { destruct (products s !! products_id_seq s) as [r|] eqn:Hr; [|done].
      specialize (Hseq _ _ Hr). lia. }
    assert (Hs1 : (create_product p0 s).2 =
      r_delete products_all
        (set_products (<[products_id_seq s := q0]> (products s))
           {| products := products s; products_id_seq := products_id_seq s + 1;
              redis := redis s; clock := clock s |})).
    { unfold create_product, sql_insert. by rewrite Hcol, Hfree. }
    pose proof (seq_ok_exec (POST_products p0) s Hseq) as Hseq1. simpl in Hseq1.
    destruct (IH _ Hseq1) as (Hseq' & Hnext & Hrows & Hall).
    split; [exact Hseq'|]. split.
    { etrans; [exact Hnext|]. rewrite Hs1. simpl. lia. }
    split.
    + intros k q. rewrite Hrows, Hs1. simpl. rewrite lookup_insert_Some. split.
      * intros [[[<- <-] | [Hne Hk]] | (i & -> & Hq)].
        -- right. exists 0%nat. simpl. split; [lia|done].
        -- by left.
        -- right. exists (S i). simpl. split; [lia|done].
      * intros [Hk | ([|i] & -> & Hq)]; simpl in *.
        -- left. right. split; [|done]. specialize (Hseq _ _ Hk). lia.
        -- left. left. split; [lia|congruence].
        -- right. exists i. split; [lia|done].
    + intros _. apply Hall. rewrite Hs1. simpl. apply lookup_delete_eq.
Qed.

(** Products created one after another on an empty table, with fields the
    columns accept, take consecutive identifiers starting at the value of the
    sequence, and the ordered query then gives exactly their stored rows in
    the order of creation. [list_products] after them reads the table: it
    returns that listing and caches its dump when [json.dumps] accepts it,
    and raises [TypeError] with nothing cached when it does not. *)
Theorem create_many_then_list s ps qs use_cache :
  products s = ∅ → redis s !! products_all = None →
  Forall2 (λ p q, column_values p = Return q) ps qs →
  let s' := run (POST_products <$> ps) s in
  let expected := numbered (products_id_seq s) qs in
  products_id_seq s' = products_id_seq s + Z.of_nat (length ps) ∧
  sql_select_all s' = expected ∧
  list_products use_cache s' =
    match json_dumps (PyList expected) with
    | Some text => (Return (PyList expected), r_setex products_all 300 text s')
    | None => (Raise TypeError, s')
    end.
Proof.
  intros Hempty Hkey Hcols s' expected.
  assert (Hseq : seq_ok s).
  { intros k p. rewrite Hempty. by rewrite lookup_empty. }
  destruct (run_creates ps qs s Hcols Hseq) as (_ & Hnext & Hrows & Hall).
  split; [exact Hnext|].
  assert (Hsel : sql_select_all s' = expected).
  { apply ascending_unique.
    - apply sql_select_all_ascending.
    - apply numbered_ascending.
    - intros r. subst s' expected. rewrite sql_select_all_rows, numbered_elem.
      rewrite Hrows, Hempty, lookup_empty. split.
      + intros [? | (i & ? & ?)]; [done|eauto].
      + intros (i & ? & ?). right. eauto. }
  split; [exact Hsel|].
  assert (Hmiss : use_cache = false ∨ falsy (r_get products_all s')).
  { right. left. apply r_get_absent. by apply Hall. }
  by rewrite (list_products_database s' use_cache Hmiss), Hsel.
Qed.

End create_many.

(** ** Reads and failures *)

Section reads_and_failures.
Context {codec : JsonCodec}.

(** A read writes at most one key: [get_product] leaves the table, the
    sequence and every key but its own per-identifier key as they were, and
    [list_products] leaves the table, the sequence and every key but the
    aggregate one as they were. *)
Theorem reads_touch_one_key s :
  (∀ product_id,
     products (get_product product_id s).2 = products s ∧
     products_id_seq (get_product product_id s).2 = products_id_seq s ∧
     ∀ key, key ≠ product_key product_id →
            redis (get_product product_id s).2 !! key = redis s !! key) ∧
  (∀ use_cache,
     products (list_products use_cache s).2 = products s ∧
     products_id_seq (list_products use_cache s).2 = products_id_seq s ∧
     ∀ key, key ≠ products_all →
            redis (list_products use_cache s).2 !! key = redis s !! key).
Proof.
  split.
  - intros k. destruct (get_product_store s k) as (Hp & Hq & _).
    split; [done|]. split; [done|]. intros key Hkey.
    destruct (get_product_redis s k) as [-> | (p & text & _ & _ & ->)]; [done|].
    by rewrite lookup_insert_ne.
  - intros uc. destruct (list_products_store s uc) as (Hp & Hq & _).
    split; [done|]. split; [done|]. intros key Hkey.
    destruct (list_products_redis s uc) as [-> | (text & _ & ->)]; [done|].
    by rewrite lookup_insert_ne.
Qed.

(** Failures and partial effects. While Redis answers, a request that
    raises leaves no partial effect: when [get_product], [list_products],
    [update_product] or [delete_product] raises, the state is the one before
    the call, and when [create_product] raises, the table and Redis are as
    before. When Redis does not answer, a write whose statement succeeds
    raises with the row already committed and Redis as it was: the keys the
    write should have deleted are still set. *)
Theorem raise_changes_nothing s :
  (∀ product_id e, (get_product product_id s).1 = Raise e →
                   (get_product product_id s).2 = s) ∧
  (∀ use_cache e, (list_products use_cache s).1 = Raise e →
                  (list_products use_cache s).2 = s) ∧
  (∀ product_id p e, (update_product product_id p s).1 = Raise e →
                     (update_product product_id p s).2 = s) ∧
  (∀ product_id e, (delete_product product_id s).1 = Raise e →
                   (delete_product product_id s).2 = s) ∧
  (∀ p e, (create_product p s).1 = Raise e →
          products (create_product p s).2 = products s ∧
          redis (create_product p s).2 = redis s ∧
          clock (create_product p s).2 = clock s) ∧
  (∀ p q, column_values p = Return q →
          products s !! products_id_seq s = None →
          (create_product_redis_down p s).1 = Raise ConnectionError ∧
          products (create_product_redis_down p s).2
          = <[products_id_seq s := q]> (products s) ∧
          redis (create_product_redis_down p s).2 = redis s) ∧
  (∀ product_id p q old, column_values p = Return q →
          products s !! product_id = Some old →
          (update_product_redis_down product_id p s).1 = Raise ConnectionError ∧
          products (update_product_redis_down product_id p s).2
          = <[product_id := q]> (products s) ∧
          redis (update_product_redis_down product_id p s).2 = redis s) ∧
  (∀ product_id old, products s !! product_id = Some old →
          (delete_product_redis_down product_id s).1 = Raise ConnectionError ∧
          products (delete_product_redis_down product_id s).2
          = delete product_id (products s) ∧
          redis (delete_product_redis_down product_id s).2 = redis s).
Proof.
  split; [|split; [|split; [|split; [|split; [|split; [|split]]]]]].
  - intros k e. unfold get_product, sql_select.
    destruct (r_get _ s) as [[|c t]|]; destruct (products s !! k); simpl;
      try done; destruct (json_dumps _); simpl; done.
  - intros uc e. unfold list_products.
    destruct uc; [destruct (r_get _ s) as [[|c t]|]|]; simpl;
      try done; destruct (json_dumps _); simpl; done.
  - intros k p e. unfold update_product, sql_update.
    destruct (column_values p); simpl; [|done].
    destruct (products s !! k); simpl; done.
  - intros k e. unfold delete_product, sql_delete.
    destruct (products s !! k); simpl; done.
  - intros p e. unfold create_product, sql_insert.
    destruct (column_values p); simpl; [|done].
    destruct (products s !! products_id_seq s); simpl; done.
  - intros p q Hcol Hfree. unfold create_product_redis_down, sql_insert.
    by rewrite Hcol, Hfree.
  - intros k p q old Hcol Hrow. unfold update_product_redis_down, sql_update.
    by rewrite Hcol, Hrow.
  - intros k old Hrow. unfold delete_product_redis_down, sql_delete.
    by rewrite Hrow.
Qed.

End reads_and_failures.

(** ** A write that fails after the commit *)

Section redis_failure.
Context {codec : JsonCodec}.

(** When Redis stops answering between the commit and the deletes of
    [create_product], the new row is in the table but the aggregate key is
    still set: once Redis answers again, [list_products] with [use_cache]
    serves the listing cached before the write, and changes nothing. *)
Theorem commit_then_redis_failure_stale_listing s p q c t :
  column_values p = Return q →
  products s !! products_id_seq s = None →
  r_get products_all s = Some (String c t) →
  let s' := (create_product_redis_down p s).2 in
  (create_product_redis_down p s).1 = Raise ConnectionError ∧
  products s' !! products_id_seq s = Some q ∧
  list_products true s' = (return_cached (String c t), s').
Proof.
  intros Hcol Hfree Hget s'. subst s'.
  unfold create_product_redis_down, sql_insert. rewrite Hcol, Hfree. simpl.
  split; [done|]. split; [apply lookup_insert_eq|].
  by apply list_products_hit.
Qed.

End redis_failure.

(** ** The further theorems at sample states *)

Section more_samples.
#[local] Existing Instance bit_codec.

Lemma ttl_bounded_one_product_cached : ttl_bounded one_product_cached.
Proof.
  intros k text expiry. unfold one_product_cached; simpl.
  rewrite lookup_insert_Some, lookup_singleton_Some.
  intros [[_ [= _ <-]] | [_ [_ [= _ <-]]]]; lia.
Qed.


Lemma coherent_one_product : coherent one_product.
Proof.
  split.
  - intros k text expiry. unfold one_product; simpl. by rewrite lookup_empty.
  - intros text expiry. unfold one_product; simpl. by rewrite lookup_empty.
Qed.

Lemma create_ids_increase_witness :
  id (mkRow 2 laptop) < id (mkRow 3 discounted).
Proof.
  apply (create_ids_increase one_product laptop
           [GET_products true; DELETE_product 2] discounted
           (mkRow 2 laptop) (create_product laptop one_product).2
           (mkRow 3 discounted)
           (create_product discounted
              (run [GET_products true; DELETE_product 2]
                   (create_product laptop one_product).2)).2);
    vm_compute; reflexivity.
Defined.

Lemma writes_touch_one_identifier_witness :
  products (delete_product 7 one_product_cached).2 !! 1 = products one_product_cached !! 1 ∧
  redis (delete_product 7 one_product_cached).2 !! product_key 1
  = redis one_product_cached !! product_key 1.
Proof.
  apply (writes_touch_one_identifier one_product_cached 7 1). lia.
Defined.


Lemma redis_setex_get_delete_witness :
  r_get "exp_key" (elapse 2 (r_setex "exp_key" 1 "expires" initial)) = None.
Proof.
  apply (redis_setex_get_delete initial "exp_key" 1 "expires" 2). lia.
Defined.

Lemma idle_cache_expires_witness :
  r_get "product:1" (elapse 300 (set_products ∅
                       (run [GET_product 1] one_product_cached))) = None.
Proof.
  apply (proj1 (idle_cache_expires one_product_cached [GET_product 1] ∅ 300
                  ttl_bounded_one_product_cached ltac:(lia))).
Defined.


Lemma create_many_then_list_witness :
  sql_select_all (run (POST_products <$> [laptop; discounted])
                      (cleanup_data one_product_cached))
  = [mkRow 2 laptop; mkRow 3 discounted].
Proof.
  apply (proj1 (proj2 (create_many_then_list (cleanup_data one_product_cached)
                         [laptop; discounted] [laptop; discounted] true
                         eq_refl eq_refl
                         ltac:(repeat constructor)))).
Defined.

Lemma update_overwrites_witness :
  update_product 1 discounted (update_product 1 overstocked one_product_cached).2
  = update_product 1 discounted one_product_cached.
Proof.
  apply (update_overwrites one_product_cached 1 overstocked discounted discounted).
  reflexivity.
Defined.

Lemma get_product_404_iff_witness :
  (get_product 7 one_product_cached).1 = Raise NotFound ↔
  r_get (product_key 7) one_product_cached = None ∧
  products one_product_cached !! 7 = None.
Proof.
  apply (get_product_404_iff one_product_cached 7 texts_truthy_one_product_cached).
Defined.

Lemma raise_changes_nothing_witness :
  (get_product 7 one_product_cached).2 = one_product_cached ∧
  (delete_product 7 one_product_cached).2 = one_product_cached.
Proof.
  destruct (raise_changes_nothing one_product_cached) as (Hg & _ & _ & Hd & _).
  split; [apply (Hg 7 NotFound) | apply (Hd 7 NotFound)]; reflexivity.
Defined.

End more_samples.

(** ** The program's serializer *)

Lemma rows_rejected_laws : @JsonLaws rows_rejected.
Proof.
  split; simpl.
  - intros [row|[|row rows]] text; try discriminate. by intros [= <-].
  - intros [row|[|row rows]]; discriminate.
Qed.

Lemma sql_select_all_nil s : sql_select_all s = [] → products s = ∅.
Proof.
  intros Hnil. apply map_empty. intros k.
  destruct (products s !! k) as [p|] eqn:Hrow; [|done].
  assert (Hin : mkRow k p ∈ sql_select_all s) by by apply sql_select_all_rows.
  rewrite Hnil in Hin. by apply elem_of_nil in Hin.
Qed.

Section program_serializer.
#[local] Existing Instance rows_rejected.

Lemma dumps_listing_rejected s :
  products s ≠ ∅ → json_dumps (PyList (sql_select_all s)) = None.
Proof.
  intros Hne. destruct (sql_select_all s) as [|row rows] eqn:Hsel; [|done].
  by destruct (Hne (sql_select_all_nil s Hsel)).
Qed.

(** C1. With the serializer the program runs, the read after an update does
    not return the updated record. From any state where the identifier has a
    row, whatever the cache holds for it, [update_product] with fields the
    columns accept returns the updated row, stores it and leaves both cache
    keys absent; the next [get_product] on the identifier, at once or after
    any delay, then misses the cache, reads the updated row from the table
    and raises [TypeError] at [json.dumps], changing nothing. *)
Theorem update_then_get_raises s product_id p q old :
  products s !! product_id = Some old →
  column_values p = Return q →
  ∃ s', update_product product_id p s = (Return (mkRow product_id q), s') ∧
        products s' !! product_id = Some q ∧
        redis s' !! product_key product_id = None ∧
        redis s' !! products_all = None ∧
        ∀ d, get_product product_id (elapse d s') = (Raise TypeError, elapse d s').
Proof.
  intros Hrow Hcol. eexists. split; [by apply (update_product_found s _ p q old)|].
  simpl. split; [apply lookup_insert_eq|].
  assert (Hkey : delete products_all (delete (product_key product_id) (redis s))
                 !! product_key product_id = None).
  { rewrite lookup_delete_None. right. apply lookup_delete_eq. }
  split; [exact Hkey|]. split; [apply lookup_delete_eq|].
  intros d. apply (get_product_miss_rejected _ _ q); simpl.
  - left. by apply r_get_absent.
  - apply lookup_insert_eq.
  - done.
Qed.

Lemma update_then_get_raises_witness :
  ∃ s', update_product 1 discounted one_product_cached
        = (Return (mkRow 1 discounted), s') ∧
        products s' !! 1 = Some discounted ∧
        redis s' !! product_key 1 = None ∧
        redis s' !! products_all = None ∧
        ∀ d, get_product 1 (elapse d s') = (Raise TypeError, elapse d s').
Proof.
  apply (update_then_get_raises one_product_cached 1 discounted discounted laptop);
    reflexivity.
Defined.

(** C3. With the serializer the program runs, a cache miss on an identifier
    the table has a row for does not populate the cache and does not return
    the row: [get_product] raises [TypeError] at [json.dumps] and leaves the
    state, the per-identifier key included, as it was. *)
Theorem get_store_hit_raises s product_id p :
  falsy (r_get (product_key product_id) s) →
  products s !! product_id = Some p →
  get_product product_id s = (Raise TypeError, s).
Proof.
  intros Hmiss Hrow. by apply (get_product_miss_rejected _ _ p).
Qed.

Lemma get_store_hit_raises_witness :
  get_product 1 one_product = (Raise TypeError, one_product).
Proof.
  apply (get_store_hit_raises one_product 1 laptop); [by left|reflexivity].
Defined.

(** C5. With the serializer the program runs, in every state the service
    reaches from the initial one where the table has a row, [list_products]
    returns no listing at all, with or without [use_cache]: it raises
    [TypeError] at [json.dumps] and changes nothing. *)
Theorem list_nonempty_raises es use_cache :
  let s := run es initial in
  products s ≠ ∅ →
  list_products use_cache s = (Raise TypeError, s).
Proof.
  intros s Hne.
  destruct (coherent_run_from_initial es) as [_ [_ Hlist]]. fold s in Hlist.
  assert (Hkey : redis s !! products_all = None).
  { destruct (redis s !! products_all) as [[text expiry]|] eqn:Hk; [|done].
    specialize (Hlist _ _ eq_refl).
    by rewrite (dumps_listing_rejected s Hne) in Hlist. }
  rewrite (list_products_database s use_cache).
  - by rewrite (dumps_listing_rejected s Hne).
  - right. left. by apply r_get_absent.
Qed.

Lemma list_nonempty_raises_witness :
  list_products true (run [POST_products laptop] initial)
  = (Raise TypeError, run [POST_products laptop] initial).
Proof.
  apply (list_nonempty_raises [POST_products laptop] true).
  intros Hempty. apply (f_equal (λ t : gmap Z Product, t !! 1)) in Hempty.
  vm_compute in Hempty. discriminate.
Defined.

(** C8. With the serializer the program runs, creating a record and then
    reading it back returns no record. After any run of the service from the
    initial state, [create_product] with fields the columns accept returns a
    row with the stored fields, the table holds it under the assigned
    identifier with its price to the hundredth, and [get_product] on that
    identifier raises [TypeError] at [json.dumps], changing nothing. *)
Theorem create_then_get_raises es p q :
  column_values p = Return q →
  let s := run es initial in
  ∃ row s', create_product p s = (Return row, s') ∧
            product row = q ∧
            products s' !! id row = Some q ∧
            get_product (id row) s' = (Raise TypeError, s').
Proof.
  intros Hcol s. destruct (run_from_initial es) as [Hseq Hkeys].
  fold s in Hseq, Hkeys.
  assert (Hfree : products s !! products_id_seq s = None).
  { destruct (products s !! products_id_seq s) as [r|] eqn:Hr; [|done].
    specialize (Hseq _ _ Hr). lia. }
  exists (mkRow (products_id_seq s) q). eexists.
  split; [|split; [done|]].
  - unfold create_product, sql_insert. rewrite Hcol, Hfree. reflexivity.
  - simpl. split; [apply lookup_insert_eq|].
    apply (get_product_miss_rejected _ _ q); simpl.
    + left. apply r_get_absent. simpl. rewrite lookup_delete_None. right.
      destruct (redis s !! product_key (products_id_seq s)) as [entry|] eqn:Hk; [|done].
      specialize (Hkeys _ _ Hk). lia.
    + apply lookup_insert_eq.
    + done.
Qed.

Lemma create_then_get_raises_witness :
  ∃ row s', create_product laptop (run [] initial) = (Return row, s') ∧
            product row = laptop ∧
            products s' !! id row = Some laptop ∧
            get_product (id row) s' = (Raise TypeError, s').
Proof.
  apply (create_then_get_raises [] laptop laptop). reflexivity.
Defined.

Lemma create_then_get_witness :
  ∃ row s',
    create_product discounted (run [POST_products laptop; DELETE_product 1] initial)
    = (Return row, s') ∧
    product row = discounted ∧
    products (run [POST_products laptop; DELETE_product 1] initial) !! id row = None ∧
    (∀ k r, products (run [POST_products laptop; DELETE_product 1] initial) !! k
            = Some r → k < id row) ∧
    products s' !! id row = Some discounted ∧
    get_product (id row) s' =
      match json_dumps (PyDict row) with
      | Some text => (Return (PyDict row), r_setex (product_key (id row)) 300 text s')
      | None => (Raise TypeError, s')
      end.
Proof.
  apply (create_then_get [POST_products laptop; DELETE_product 1]
           discounted discounted).
  reflexivity.
Defined.

Lemma cached_listing_served_until_expiry_witness :
  list_products true
    (set_products {[ 1 := laptop ]} (elapse 299 (list_products true initial).2))
  = (Return (PyList (sql_select_all initial)),
     set_products {[ 1 := laptop ]} (elapse 299 (list_products true initial).2)).
Proof.
  apply (proj1 (cached_listing_served_until_expiry (laws := rows_rejected_laws)
                  initial "[]" 299 {[ 1 := laptop ]}
                  (or_introl eq_refl) eq_refl)).
  reflexivity.
Defined.

Lemma commit_then_redis_failure_stale_listing_witness :
  (create_product_redis_down laptop (list_products true initial).2).1
  = Raise ConnectionError ∧
  products (create_product_redis_down laptop (list_products true initial).2).2 !! 1
  = Some laptop ∧
  list_products true (create_product_redis_down laptop (list_products true initial).2).2
  = (Return (PyList []),
     (create_product_redis_down laptop (list_products true initial).2).2).
Proof.
  exact (commit_then_redis_failure_stale_listing (list_products true initial).2
           laptop laptop "["%char "]" eq_refl eq_refl eq_refl).
Defined.

End program_serializer.
